(** * peerstream: the Swarm of swarm.go

    A shallow embedding of [swarm.go]: the Swarm's registries and policy
    slots, the NewStream* family and the validation they share, followed by
    the properties of these operations.

    Conventions of the embedding.
    - A Go method with a [*Swarm] receiver is a computation in the monad [M]:
      it reads and may replace the Swarm, may call a collaborator (the
      selector, the session of a conn), and ends in a result.  The calls to
      collaborators are recorded in a trace, so that statements such as
      "the selector is never invoked" can be written down.
    - A Go result pair [(v, err)] is [Ok v] or [Err e]; a Go [panic] is
      [Panic msg] and unwinds through every caller, as no function of the
      file recovers.
    - An error made by [errors.New] is known by its message, which is all a
      caller can inspect of it; the package's sentinel errors and the errors
      of the session are values of their own.
    - Pointers to a Swarm are addresses ([SwarmRef]); the reader/writer locks
      guard single reads of a registry and are not part of the sequential
      model. *)

From stdpp Require Import base option list countable gmap sets strings.

Local Open Scope string_scope.

Module peerstream.

(** ** Data *)

(** [*Swarm]: the address of a Swarm. *)
Definition SwarmRef := nat.

(** The outcome of [ssConn.CreateStream]: the session of a conn either opens
    a logical stream or reports an error of its own. *)
Record ssStream := { ss_stream_id : nat }.

Record ssConnT := {
  ss_id : nat;
  (* [Some code]: the session is unusable and CreateStream fails with it *)
  ss_failure : option nat
}.

(** The struct [conn] behind the [Conn] interface. *)
Record conn := {
  conn_id : nat;
  conn_swarm : SwarmRef;
  ssConn : ssConnT
}.

(** A non-nil value of the interface [Conn]: its dynamic type is either the
    package's own [*conn] or some other implementation, of which only its
    identity and the answer of its [Swarm()] method matter.  The nil
    interface value is [None] of [option Conn]. *)
Inductive Conn :=
  | OwnConn (c : conn)
  | OtherConn (id : nat) (owner : SwarmRef).

(** [conn.Swarm()] *)
Definition Conn_Swarm (c : Conn) : SwarmRef :=
  match c with
  | OwnConn ic => conn_swarm ic
  | OtherConn _ owner => owner
  end.

(** Modelled from the spec: the type [Stream] and its constructor [newStream]
    are not in swarm.go; a Stream is a handle that knows its owning conn, and
    [newStream c] builds the handle of a stream of [c]. *)
Record Stream := { stream_conn : conn }.

Definition newStream (c : conn) : Stream := {| stream_conn := c |}.

Record Listener := { listener_id : nat }.

(** [net.Conn] and [net.Listener]: transport objects, known by identity. *)
Record netConn := { net_conn_id : nat }.
Record netListener := { net_listener_id : nat }.

Definition GroupID := string.

(** ** Equality and enumeration of the registry keys *)

#[global] Instance ssConnT_eq_dec : EqDecision ssConnT.
Proof. solve_decision. Defined.
#[global] Instance conn_eq_dec : EqDecision conn.
Proof. solve_decision. Defined.
#[global] Instance Conn_eq_dec : EqDecision Conn.
Proof. solve_decision. Defined.
#[global] Instance Stream_eq_dec : EqDecision Stream.
Proof. solve_decision. Defined.
#[global] Instance Listener_eq_dec : EqDecision Listener.
Proof. solve_decision. Defined.

#[global] Instance ssConnT_countable : Countable ssConnT.
Proof.
  refine (inj_countable' (fun s => (ss_id s, ss_failure s))
            (fun p => {| ss_id := p.1; ss_failure := p.2 |}) _).
  by intros [].
Defined.

#[global] Instance conn_countable : Countable conn.
Proof.
  refine (inj_countable' (fun c => (conn_id c, conn_swarm c, ssConn c))
            (fun p => {| conn_id := p.1.1; conn_swarm := p.1.2; ssConn := p.2 |}) _).
  by intros [].
Defined.

#[global] Instance Conn_countable : Countable Conn.
Proof.
  refine (inj_countable'
            (fun c => match c with
                      | OwnConn ic => inl ic
                      | OtherConn id owner => inr (id, owner)
                      end)
            (fun x => match x with
                      | inl ic => OwnConn ic
                      | inr p => OtherConn p.1 p.2
                      end) _).
  by intros [].
Defined.

#[global] Instance Stream_countable : Countable Stream.
Proof.
  refine (inj_countable' stream_conn (fun c => {| stream_conn := c |}) _).
  by intros [].
Defined.

#[global] Instance Listener_countable : Countable Listener.
Proof.
  refine (inj_countable' listener_id (fun n => {| listener_id := n |}) _).
  by intros [].
Defined.

(** ** Policy values and unsafe pointers

    [SelectConn] is [func([]Conn) Conn] and [StreamHandler] is
    [func(Stream)].  The accessors of the Swarm move both through
    [unsafe.Pointer], which forgets the func type; a raw pointer is nil or
    points to the code of a function of either kind. *)

Definition SelectFn := list Conn -> option Conn.

Inductive funcCode :=
  | SelectCode (f : SelectFn)
  | HandleCode (h : nat).

Definition unsafe_Pointer := option funcCode.

Record SelectConnT := AsSelectConn { sc_ptr : unsafe_Pointer }.
Record StreamHandlerT := AsStreamHandler { sh_ptr : unsafe_Pointer }.

(** The selector whose body is [f], the handler number [h], and the nil
    values of both types. *)
Definition selector (f : SelectFn) : SelectConnT := AsSelectConn (Some (SelectCode f)).
Definition handler (h : nat) : StreamHandlerT := AsStreamHandler (Some (HandleCode h)).
Definition nilSelectConn : SelectConnT := AsSelectConn None.
Definition nilStreamHandler : StreamHandlerT := AsStreamHandler None.

(** ** Groups *)

(** Modelled from the spec: the group registry [connGrps] and its type are not
    in swarm.go; it is a mapping keyed by GroupID, each value a set of Conn
    identities, [Get] is the lookup (nil when no Group is registered under the
    id), [GetAll] the snapshot of the members and [grpblsToConns] its
    conversion to [[]Conn]. *)
Record Group := { members : gset Conn }.

Definition connGrps_Get (grps : gmap GroupID Group) (group : GroupID) : option Group :=
  grps !! group.

Definition Group_GetAll (g : Group) : list Conn := elements (members g).

Definition grpblsToConns (l : list Conn) : list Conn := l.

(** Modelled from the spec: [ConnInConns] is not in swarm.go; it tells whether
    the selected connection is one of the offered ones ("best ∉ C"). *)
Definition ConnInConns (c : Conn) (cs : list Conn) : bool := bool_decide (c ∈ cs).

(** ** The Swarm *)

Record Swarm := {
  (* the address of this Swarm, what [conn.Swarm()] is compared with *)
  self : SwarmRef;
  (* active streams *)
  streams : gset Stream;
  (* active connections *)
  conns : gset Conn;
  (* active listeners *)
  listeners : gset Listener;
  (* the groups of connections *)
  connGrps : gmap GroupID Group;
  (* the default SelectConn function *)
  selectConn : SelectConnT;
  (* receives Streams initiated remotely *)
  streamHandler : StreamHandlerT
}.

(** ** Errors and results *)

Inductive error :=
  | ErrNoConnections
  | ErrInvalidConnSelected
  | ErrGroupNotFound
  | errors_New (msg : string)
  | SessionError (code : nat).

#[global] Instance error_eq_dec : EqDecision error.
Proof. solve_decision. Defined.

Inductive result (A : Type) :=
  | Ok (a : A)
  | Err (e : error)
  | Panic (msg : string).
Arguments Ok {A} a.
Arguments Err {A} e.
Arguments Panic {A} msg.

(** Calls that leave the Swarm: the selector applied to the offered
    connections, and CreateStream on the session of a conn. *)
Inductive Event :=
  | CallSelect (offered : list Conn)
  | CallCreateStream (c : conn).

Record World := {
  swarm : Swarm;
  trace : list Event
}.

Definition M (A : Type) : Type := World -> World * result A.

Definition ret {A} (a : A) : M A := fun w => (w, Ok a).
Definition fail {A} (e : error) : M A := fun w => (w, Err e).
Definition panic {A} (msg : string) : M A := fun w => (w, Panic msg).

Definition bind {A B} (m : M A) (k : A -> M B) : M B :=
  fun w =>
    match m w with
    | (w', Ok a) => k a w'
    | (w', Err e) => (w', Err e)
    | (w', Panic msg) => (w', Panic msg)
    end.

Definition getSwarm : M Swarm := fun w => (w, Ok (swarm w)).
Definition putSwarm (s : Swarm) : M unit :=
  fun w => ({| swarm := s; trace := trace w |}, Ok tt).
Definition emit (e : Event) : M unit :=
  fun w => ({| swarm := swarm w; trace := trace w ++ [e] |}, Ok tt).

#[global] Instance M_ret : MRet M := @ret.
#[global] Instance M_bind : MBind M := fun A B k m => bind m k.

(** A computation started on a Swarm with an empty trace. *)
Definition run {A} (m : M A) (s : Swarm) : World * result A :=
  m {| swarm := s; trace := [] |}.

(** ** Collaborators *)

(** [c.ssConn.CreateStream(http.Header{}, nil, false)] *)
Definition ssConn_CreateStream (c : conn) : M ssStream :=
  emit (CallCreateStream c);;
  match ss_failure (ssConn c) with
  | Some code => fail (SessionError code)
  | None => ret {| ss_stream_id := ss_id (ssConn c) |}
  end.

(** [selConn(conns)]: a call through a func value.  A nil func value panics;
    so does a value that reached the func type through a cast of a pointer to
    code of the other kind. *)
Definition callSelectConn (selConn : SelectConnT) (cs : list Conn) : M (option Conn) :=
  match sc_ptr selConn with
  | None => panic "invalid memory address or nil pointer dereference"
  | Some (HandleCode _) => panic "call of a func value of the wrong type"
  | Some (SelectCode f) => emit (CallSelect cs);; ret (f cs)
  end.

(** [atomic.SwapPointer] and [atomic.LoadPointer] on a slot, sequentially. *)
Definition atomic_SwapPointer (slot new : unsafe_Pointer) : unsafe_Pointer := new.
Definition atomic_LoadPointer (slot : unsafe_Pointer) : unsafe_Pointer := slot.

(** ** Policy slots *)

Definition with_streamHandler (s : Swarm) (p : unsafe_Pointer) : Swarm :=
  {| self := self s; streams := streams s; conns := conns s;
     listeners := listeners s; connGrps := connGrps s;
     selectConn := selectConn s; streamHandler := AsStreamHandler p |}.

Definition with_selectConn (s : Swarm) (p : unsafe_Pointer) : Swarm :=
  {| self := self s; streams := streams s; conns := conns s;
     listeners := listeners s; connGrps := connGrps s;
     selectConn := AsSelectConn p; streamHandler := streamHandler s |}.

(** [func (s *Swarm) SetStreamHandler(sh StreamHandler)] *)
Definition SetStreamHandler (sh : StreamHandlerT) : M unit :=
  s ← getSwarm;
  putSwarm (with_streamHandler s
              (atomic_SwapPointer (sh_ptr (streamHandler s)) (sh_ptr sh))).

(** [func (s *Swarm) StreamHandler() StreamHandler] *)
Definition StreamHandler : M StreamHandlerT :=
  s ← getSwarm;
  mret (AsStreamHandler (atomic_LoadPointer (sh_ptr (streamHandler s)))).

(** [func (s *Swarm) SetSelectConn(cs SelectConn)] *)
Definition SetSelectConn (cs : SelectConnT) : M unit :=
  s ← getSwarm;
  putSwarm (with_selectConn s
              (atomic_SwapPointer (sc_ptr (selectConn s)) (sc_ptr cs))).

(** [func (s *Swarm) SelectConn() StreamHandler]: the selector slot is
    loaded, and returned at the type StreamHandler. *)
Definition SelectConn : M StreamHandlerT :=
  s ← getSwarm;
  mret (AsStreamHandler (atomic_LoadPointer (sc_ptr (selectConn s)))).

(** ** Snapshots of the registries

    A snapshot ranges over a Go map, whose order of iteration is not fixed;
    here it is the order of [elements].  No statement below depends on the
    order: where a snapshot is offered to a selector, the statement speaks of
    whatever the selector answers on the list it is given. *)

(** A Go slice: the elements it holds and the capacity of its array. *)
Record slice (A : Type) := { items : list A; capacity : nat }.
Arguments items {A} _.
Arguments capacity {A} _.

(** [make([]T, 0, n)] *)
Definition make_slice {A} (n : nat) : slice A := {| items := []; capacity := n |}.

(** [append(sl, x)]: the element goes to the end of the slice; when the array
    is full, the slice moves to a larger array, one that is large enough. *)
Definition append {A} (sl : slice A) (x : A) : slice A :=
  {| items := items sl ++ [x];
     capacity := Nat.max (capacity sl) (S (length (items sl))) |}.

(** The loop of the three snapshots,
    [out := make([]T, 0, len(m)); for c := range m { out = append(out, c) }],
    over the keys of the map [m]. *)
Definition collectKeys {A} `{Countable A} (m : gset A) : slice A :=
  foldl append (make_slice (size m)) (elements m).

(** [func (s *Swarm) Conns() []Conn] *)
Definition Conns : M (list Conn) :=
  s ← getSwarm; mret (items (collectKeys (conns s))).

(** [func (s *Swarm) Listeners() []Listener] *)
Definition Listeners : M (list Listener) :=
  s ← getSwarm; mret (items (collectKeys (listeners s))).

(** [func (s *Swarm) Streams() []Stream] *)
Definition Streams : M (list Stream) :=
  s ← getSwarm; mret (items (collectKeys (streams s))).

(** ** Adding listeners and connections *)

(** [func (s *Swarm) AddListener(net.Listener) error] *)
Definition AddListener (l : netListener) : M unit :=
  panic "nyi".

(** [func (s *Swarm) AddConn(net.Conn) (Conn, error)] *)
Definition AddConn (c : netConn) : M (option Conn) :=
  panic "nyi".

(** ** Opening streams *)

(** [func (s *Swarm) setupStream(c *conn) (Stream, error)] *)
Definition setupStream (c : conn) : M Stream :=
  ssStream ← ssConn_CreateStream c;
  let stream := newStream c in
  mret stream.

(** [func (s *Swarm) NewStreamWithConn(conn Conn) (Stream, error)] *)
Definition NewStreamWithConn (conn : option Conn) : M Stream :=
  s ← getSwarm;
  match conn with
  | None => fail (errors_New "nil Conn")
  | Some c =>
      if negb (bool_decide (Conn_Swarm c = self s)) then
        fail (errors_New "connection not associated with swarm")
      else if negb (bool_decide (c ∈ conns s)) then
        fail (errors_New "connection not associated with swarm")
      else
        match c with
        | OwnConn iconn => setupStream iconn
        | OtherConn _ _ => fail (errors_New "invalid conn")
        end
  end.

(** [func (s *Swarm) newStreamSelectConn(selConn SelectConn, conns []Conn)] *)
Definition newStreamSelectConn (selConn : SelectConnT) (conns : list Conn) : M Stream :=
  match sc_ptr selConn with
  | None => fail (errors_New "nil SelectConn")
  | Some _ =>
      best ← callSelectConn selConn conns;
      match best with
      | None => fail ErrInvalidConnSelected
      | Some b =>
          if negb (ConnInConns b conns) then fail ErrInvalidConnSelected
          else NewStreamWithConn (Some b)
      end
  end.

(** [func (s *Swarm) NewStreamSelectConn(selConn SelectConn)].  The guard
    [len(conns) == nil] compares the length with the zero value. *)
Definition NewStreamSelectConn (selConn : SelectConnT) : M Stream :=
  conns ← Conns;
  if Nat.eqb (length conns) 0 then fail ErrNoConnections
  else newStreamSelectConn selConn conns.

(** A StreamHandler handed to a parameter of type SelectConn: the same
    pointer, seen at the parameter's type. *)
Definition toSelectConn (h : StreamHandlerT) : SelectConnT :=
  AsSelectConn (sh_ptr h).

(** [func (s *Swarm) NewStream() (Stream, error)] *)
Definition NewStream : M Stream :=
  sel ← SelectConn;
  NewStreamSelectConn (toSelectConn sel).

(** [func (s *Swarm) NewStreamWithGroup(group GroupID) (Stream, error)] *)
Definition NewStreamWithGroup (group : GroupID) : M Stream :=
  s ← getSwarm;
  match connGrps_Get (connGrps s) group with
  | None => fail ErrGroupNotFound
  | Some g =>
      let conns := grpblsToConns (Group_GetAll g) in
      sel ← SelectConn;
      newStreamSelectConn (toSelectConn sel) conns
  end.

(** [func (s *Swarm) NewStreamWithNetConn(netConn net.Conn) (Stream, error)] *)
Definition NewStreamWithNetConn (nc : netConn) : M Stream :=
  c ← AddConn nc;
  NewStreamWithConn c.

(** The five ways to ask the Swarm for a stream. *)
Inductive NewStreamCall :=
  | CallNewStream
  | CallNewStreamSelectConn (selConn : SelectConnT)
  | CallNewStreamWithGroup (group : GroupID)
  | CallNewStreamWithConn (conn : option Conn)
  | CallNewStreamWithNetConn (nc : netConn).

Definition doNewStream (call : NewStreamCall) : M Stream :=
  match call with
  | CallNewStream => NewStream
  | CallNewStreamSelectConn selConn => NewStreamSelectConn selConn
  | CallNewStreamWithGroup group => NewStreamWithGroup group
  | CallNewStreamWithConn conn => NewStreamWithConn conn
  | CallNewStreamWithNetConn nc => NewStreamWithNetConn nc
  end.

(** ** Reading an outcome *)

Definition swarmAfter {A} (o : World * result A) : Swarm := swarm o.1.
Definition traceOf {A} (o : World * result A) : list Event := trace o.1.
Definition resultOf {A} (o : World * result A) : result A := o.2.

Definition isCreateStream (e : Event) : bool :=
  match e with CallCreateStream _ => true | _ => false end.

(** How many logical streams the sessions were asked for. *)
Definition streamsCreated (t : list Event) : nat :=
  length (List.filter isCreateStream t).

(** ** Sample data *)

Definition liveSession (n : nat) : ssConnT := {| ss_id := n; ss_failure := None |}.

Definition connA : conn := {| conn_id := 1; conn_swarm := 7; ssConn := liveSession 1 |}.
Definition connB : conn := {| conn_id := 2; conn_swarm := 7; ssConn := liveSession 2 |}.
(* a conn of the Swarm at address 8 *)
Definition connElsewhere : conn := {| conn_id := 3; conn_swarm := 8; ssConn := liveSession 3 |}.

Definition alwaysA : SelectFn := fun _ => Some (OwnConn connA).
Definition alwaysB : SelectFn := fun _ => Some (OwnConn connB).
Definition pickNone : SelectFn := fun _ => None.
Definition pickFirst : SelectFn := fun cs => head cs.

Definition emptySwarm : Swarm :=
  {| self := 7; streams := ∅; conns := ∅; listeners := ∅; connGrps := ∅;
     selectConn := selector pickFirst; streamHandler := nilStreamHandler |}.

(* the Swarm at address 7 with the one connection A and an empty group *)
Definition swarmA : Swarm :=
  {| self := 7; streams := ∅; conns := {[ OwnConn connA ]}; listeners := ∅;
     connGrps := {[ "peerX" := {| members := ∅ |} ]};
     selectConn := selector pickFirst; streamHandler := nilStreamHandler |}.

(* a conn of this Swarm whose session refuses to open streams *)
Definition connBroken : conn :=
  {| conn_id := 4; conn_swarm := 7; ssConn := {| ss_id := 4; ss_failure := Some 5 |} |}.

(* the Swarm at address 7 with the connections A and B, the group "peerX" of
   A alone, and the selector that always answers A *)
Definition swarmAB : Swarm :=
  {| self := 7; streams := ∅; conns := {[ OwnConn connA; OwnConn connB ]};
     listeners := ∅;
     connGrps := {[ "peerX" := {| members := {[ OwnConn connA ]} |} ]};
     selectConn := selector alwaysA; streamHandler := nilStreamHandler |}.

(* the Swarm at address 7 that holds a conn with a broken session and a conn
   of a foreign implementation *)
Definition swarmOdd : Swarm :=
  {| self := 7; streams := ∅; conns := {[ OwnConn connBroken; OtherConn 9 7 ]};
     listeners := ∅; connGrps := ∅;
     selectConn := nilSelectConn; streamHandler := nilStreamHandler |}.

(** ** The conn a call settles on *)

(** What the selector [sel] answers on the candidates [cs], when it is a
    selector at all. *)
Definition answerOf (sel : SelectConnT) (cs : list Conn) : option Conn :=
  match sc_ptr sel with
  | Some (SelectCode f) => f cs
  | _ => None
  end.

(** The conn on which a stream-opening call is to open its stream: the conn
    handed to NewStreamWithConn, or the answer of the selector in use on the
    candidates of the call. *)
Definition chosenConn (s : Swarm) (call : NewStreamCall) : option Conn :=
  match call with
  | CallNewStream => answerOf (selectConn s) (elements (conns s))
  | CallNewStreamSelectConn sel => answerOf sel (elements (conns s))
  | CallNewStreamWithGroup group =>
      match connGrps s !! group with
      | Some g => answerOf (selectConn s) (elements (members g))
      | None => None
      end
  | CallNewStreamWithConn given => given
  | CallNewStreamWithNetConn _ => None
  end.

(** ** Callers

    A caller of the Swarm issues one call after the other.  It receives the
    result pair of a call and goes on, whether the call returned a value or
    an error; a panic ends the caller. *)

Definition discard {A} (m : M A) : M unit :=
  fun w =>
    match m w with
    | (w', Panic msg) => (w', Panic msg)
    | (w', _) => (w', Ok tt)
    end.

(** The exported methods of the Swarm, with their arguments. *)
Inductive ApiCall :=
  | ApiSetStreamHandler (sh : StreamHandlerT)
  | ApiStreamHandler
  | ApiSetSelectConn (cs : SelectConnT)
  | ApiSelectConn
  | ApiConns
  | ApiListeners
  | ApiStreams
  | ApiAddListener (l : netListener)
  | ApiAddConn (nc : netConn)
  | ApiNewStream (call : NewStreamCall).

Definition perform (c : ApiCall) : M unit :=
  match c with
  | ApiSetStreamHandler sh => SetStreamHandler sh
  | ApiStreamHandler => discard StreamHandler
  | ApiSetSelectConn cs => SetSelectConn cs
  | ApiSelectConn => discard SelectConn
  | ApiConns => discard Conns
  | ApiListeners => discard Listeners
  | ApiStreams => discard Streams
  | ApiAddListener l => AddListener l
  | ApiAddConn nc => discard (AddConn nc)
  | ApiNewStream call => discard (doNewStream call)
  end.

Fixpoint performAll (cs : list ApiCall) : M unit :=
  match cs with
  | [] => mret tt
  | c :: rest => perform c;; performAll rest
  end.

(** The handler, and the selector, that the calls [cs] leave in the slot
    that held [cur]: the argument of the last setter among them. *)
Fixpoint lastStreamHandler (cs : list ApiCall) (cur : StreamHandlerT) : StreamHandlerT :=
  match cs with
  | [] => cur
  | ApiSetStreamHandler sh :: rest => lastStreamHandler rest sh
  | _ :: rest => lastStreamHandler rest cur
  end.

Fixpoint lastSelectConn (cs : list ApiCall) (cur : SelectConnT) : SelectConnT :=
  match cs with
  | [] => cur
  | ApiSetSelectConn sel :: rest => lastSelectConn rest sel
  | _ :: rest => lastSelectConn rest cur
  end.

(** ** The loop of the snapshots *)

Lemma foldl_append_items {A} (l : list A) (sl : slice A) :
  items (foldl append sl l) = (items sl ++ l)%list.
Proof.
  revert sl. induction l as [|x l IH]; intros sl; cbn [foldl].
  - by rewrite app_nil_r.
  - rewrite IH. cbn [append items]. by rewrite <- app_assoc.
Qed.


Lemma collectKeys_items {A} `{Countable A} (m : gset A) :
  items (collectKeys m) = elements m.
Proof. unfold collectKeys. by rewrite foldl_append_items. Qed.


(** ** Equations of the operations

    Each operation, applied to a world, written out once; the proofs below
    rewrite with these rather than unfold the monad. *)

Section Equations.
Variable w : World.

Lemma Conns_eq : Conns w = (w, Ok (elements (conns (swarm w)))).
Proof.
  unfold Conns, mbind, M_bind, bind, getSwarm, mret, M_ret, ret.
  by rewrite collectKeys_items.
Qed.

Lemma SelectConn_eq :
  SelectConn w = (w, Ok (AsStreamHandler (sc_ptr (selectConn (swarm w))))).
Proof. reflexivity. Qed.

Lemma AddConn_eq (nc : netConn) : AddConn nc w = (w, Panic "nyi").
Proof. reflexivity. Qed.

Lemma setupStream_eq (c : conn) :
  setupStream c w =
    ({| swarm := swarm w; trace := trace w ++ [CallCreateStream c] |},
     match ss_failure (ssConn c) with
     | Some code => Err (SessionError code)
     | None => Ok (newStream c)
     end).
Proof.
  unfold setupStream, ssConn_CreateStream, mbind, M_bind, bind, emit.
  destruct (ss_failure (ssConn c)); reflexivity.
Qed.

Lemma NewStreamWithConn_nil :
  NewStreamWithConn None w = (w, Err (errors_New "nil Conn")).
Proof. reflexivity. Qed.

Lemma NewStreamWithConn_wrong_swarm (c : Conn) :
  Conn_Swarm c ≠ self (swarm w) ->
  NewStreamWithConn (Some c) w =
    (w, Err (errors_New "connection not associated with swarm")).
Proof.
  intros Hne. unfold NewStreamWithConn, mbind, M_bind, bind, getSwarm.
  rewrite bool_decide_eq_false_2 by done. reflexivity.
Qed.

Lemma NewStreamWithConn_not_registered (c : Conn) :
  c ∉ conns (swarm w) ->
  NewStreamWithConn (Some c) w =
    (w, Err (errors_New "connection not associated with swarm")).
Proof.
  intros Hnot. unfold NewStreamWithConn, mbind, M_bind, bind, getSwarm.
  destruct (bool_decide (Conn_Swarm c = self (swarm w))); [|reflexivity].
  rewrite (bool_decide_eq_false_2 (c ∈ conns (swarm w))) by done. reflexivity.
Qed.

Lemma NewStreamWithConn_registered (c : Conn) :
  Conn_Swarm c = self (swarm w) ->
  c ∈ conns (swarm w) ->
  NewStreamWithConn (Some c) w =
    match c with
    | OwnConn iconn => setupStream iconn w
    | OtherConn _ _ => (w, Err (errors_New "invalid conn"))
    end.
Proof.
  intros Hsw Hin. unfold NewStreamWithConn, mbind, M_bind, bind, getSwarm.
  rewrite bool_decide_eq_true_2 by done.
  rewrite (bool_decide_eq_true_2 (c ∈ conns (swarm w))) by done.
  destruct c; reflexivity.
Qed.

Lemma newStreamSelectConn_nil (selConn : SelectConnT) (cs : list Conn) :
  sc_ptr selConn = None ->
  newStreamSelectConn selConn cs w = (w, Err (errors_New "nil SelectConn")).
Proof. intros Hnil. unfold newStreamSelectConn. rewrite Hnil. reflexivity. Qed.

Lemma newStreamSelectConn_handler (selConn : SelectConnT) (cs : list Conn) (h : nat) :
  sc_ptr selConn = Some (HandleCode h) ->
  newStreamSelectConn selConn cs w =
    (w, Panic "call of a func value of the wrong type").
Proof.
  intros Hh. unfold newStreamSelectConn, callSelectConn. rewrite Hh. reflexivity.
Qed.

Lemma newStreamSelectConn_selector (selConn : SelectConnT) (cs : list Conn) (f : SelectFn) :
  sc_ptr selConn = Some (SelectCode f) ->
  newStreamSelectConn selConn cs w =
    let w' := {| swarm := swarm w; trace := trace w ++ [CallSelect cs] |} in
    match f cs with
    | None => (w', Err ErrInvalidConnSelected)
    | Some b =>
        if ConnInConns b cs then NewStreamWithConn (Some b) w'
        else (w', Err ErrInvalidConnSelected)
    end.
Proof.
  intros Hf. unfold newStreamSelectConn, callSelectConn. rewrite Hf.
  unfold mbind, M_bind, bind, emit, mret, M_ret, ret. cbn [fst snd].
  destruct (f cs) as [b|]; [|reflexivity].
  destruct (ConnInConns b cs); reflexivity.
Qed.

Lemma NewStreamSelectConn_empty (selConn : SelectConnT) :
  conns (swarm w) = ∅ ->
  NewStreamSelectConn selConn w = (w, Err ErrNoConnections).
Proof.
  intros He. unfold NewStreamSelectConn, mbind, M_bind, bind. rewrite Conns_eq, He.
  rewrite elements_empty. reflexivity.
Qed.

Lemma NewStreamSelectConn_nonempty (selConn : SelectConnT) :
  conns (swarm w) ≠ ∅ ->
  NewStreamSelectConn selConn w =
    newStreamSelectConn selConn (elements (conns (swarm w))) w.
Proof.
  intros Hne. unfold NewStreamSelectConn, mbind, M_bind, bind. rewrite Conns_eq.
  destruct (elements (conns (swarm w))) as [|c cs] eqn:El; [|reflexivity].
  apply elements_empty_inv in El. apply leibniz_equiv in El. done.
Qed.

Lemma NewStream_eq :
  NewStream w = NewStreamSelectConn (AsSelectConn (sc_ptr (selectConn (swarm w)))) w.
Proof. reflexivity. Qed.

Lemma NewStreamWithGroup_unknown (group : GroupID) :
  connGrps (swarm w) !! group = None ->
  NewStreamWithGroup group w = (w, Err ErrGroupNotFound).
Proof.
  intros Hg. unfold NewStreamWithGroup, mbind, M_bind, bind, getSwarm, connGrps_Get.
  rewrite Hg. reflexivity.
Qed.

Lemma NewStreamWithGroup_known (group : GroupID) (g : Group) :
  connGrps (swarm w) !! group = Some g ->
  NewStreamWithGroup group w =
    newStreamSelectConn (AsSelectConn (sc_ptr (selectConn (swarm w))))
      (elements (members g)) w.
Proof.
  intros Hg. unfold NewStreamWithGroup, mbind, M_bind, bind, getSwarm, connGrps_Get.
  rewrite Hg. reflexivity.
Qed.

Lemma NewStreamWithNetConn_eq (nc : netConn) :
  NewStreamWithNetConn nc w = (w, Panic "nyi").
Proof. reflexivity. Qed.
End Equations.

(** ** Counting the calls in a trace *)

Lemma streamsCreated_snoc_create (t : list Event) (c : conn) :
  streamsCreated (t ++ [CallCreateStream c]) = S (streamsCreated t).
Proof.
  unfold streamsCreated. rewrite List.filter_app, length_app. cbn. lia.
Qed.

Lemma streamsCreated_snoc_select (t : list Event) (cs : list Conn) :
  streamsCreated (t ++ [CallSelect cs]) = streamsCreated t.
Proof.
  unfold streamsCreated. rewrite List.filter_app, length_app. cbn. lia.
Qed.

(** ** What every way of opening a stream has in common

    [steady w o]: the outcome [o] of an operation started in [w] has the
    Swarm of [w], and when it is a Stream then exactly one more logical
    stream was asked of a session than before. *)

Definition steady (w : World) (o : World * result Stream) : Prop :=
  swarm o.1 = swarm w /\
  (forall st, o.2 = Ok st -> streamsCreated (trace o.1) = S (streamsCreated (trace w))).

Lemma steady_refused (w : World) (t : list Event) (r : result Stream) :
  (forall st, r ≠ Ok st) ->
  steady w ({| swarm := swarm w; trace := t |}, r).
Proof. intros Hr. split; [reflexivity|]. intros st Hst. by destruct (Hr st). Qed.

Lemma steady_same (w : World) (r : result Stream) :
  (forall st, r ≠ Ok st) -> steady w (w, r).
Proof. intros Hr. split; [reflexivity|]. intros st Hst. by destruct (Hr st). Qed.

Lemma steady_setupStream (w : World) (c : conn) : steady w (setupStream c w).
Proof.
  rewrite setupStream_eq. split; [reflexivity|]. intros st _. cbn [fst trace].
  apply streamsCreated_snoc_create.
Qed.

Lemma steady_NewStreamWithConn (w : World) (conn : option Conn) :
  steady w (NewStreamWithConn conn w).
Proof.
  destruct conn as [c|]; [|by apply steady_same].
  destruct (decide (Conn_Swarm c = self (swarm w))) as [Hsw|Hsw].
  - destruct (decide (c ∈ conns (swarm w))) as [Hin|Hin].
    + rewrite NewStreamWithConn_registered by done.
      destruct c; [apply steady_setupStream | by apply steady_same].
    + rewrite NewStreamWithConn_not_registered by done. by apply steady_same.
  - rewrite NewStreamWithConn_wrong_swarm by done. by apply steady_same.
Qed.

Lemma steady_after_select (w : World) (cs : list Conn) (o : World * result Stream) :
  steady {| swarm := swarm w; trace := trace w ++ [CallSelect cs] |} o ->
  steady w o.
Proof.
  intros [Hs Ht]. split; [exact Hs|]. intros st Hst.
  rewrite (Ht st Hst). cbn [trace]. by rewrite streamsCreated_snoc_select.
Qed.

Lemma steady_newStreamSelectConn (w : World) (selConn : SelectConnT) (cs : list Conn) :
  steady w (newStreamSelectConn selConn cs w).
Proof.
  destruct (sc_ptr selConn) as [[f|h]|] eqn:Hp.
  - rewrite (newStreamSelectConn_selector w selConn cs f Hp). cbn zeta.
    destruct (f cs) as [b|]; [|by apply steady_refused].
    destruct (ConnInConns b cs); [|by apply steady_refused].
    apply (steady_after_select w cs), steady_NewStreamWithConn.
  - rewrite (newStreamSelectConn_handler w selConn cs h Hp). by apply steady_same.
  - rewrite (newStreamSelectConn_nil w selConn cs Hp). by apply steady_same.
Qed.

Lemma steady_NewStreamSelectConn (w : World) (selConn : SelectConnT) :
  steady w (NewStreamSelectConn selConn w).
Proof.
  destruct (decide (conns (swarm w) = ∅)) as [He|Hne].
  - rewrite NewStreamSelectConn_empty by done. by apply steady_same.
  - rewrite NewStreamSelectConn_nonempty by done. apply steady_newStreamSelectConn.
Qed.

Lemma steady_NewStreamWithGroup (w : World) (group : GroupID) :
  steady w (NewStreamWithGroup group w).
Proof.
  destruct (connGrps (swarm w) !! group) as [g|] eqn:Hg.
  - rewrite (NewStreamWithGroup_known w group g Hg). apply steady_newStreamSelectConn.
  - rewrite NewStreamWithGroup_unknown by done. by apply steady_same.
Qed.

Lemma steady_doNewStream (w : World) (call : NewStreamCall) :
  steady w (doNewStream call w).
Proof.
  destruct call; cbn [doNewStream].
  - rewrite NewStream_eq. apply steady_NewStreamSelectConn.
  - apply steady_NewStreamSelectConn.
  - apply steady_NewStreamWithGroup.
  - apply steady_NewStreamWithConn.
  - rewrite NewStreamWithNetConn_eq. by apply steady_same.
Qed.

Lemma NewStreamWithConn_not_nil_selector (w : World) (conn : option Conn) :
  (NewStreamWithConn conn w).2 ≠ Err (errors_New "nil SelectConn").
Proof.
  destruct conn as [c|]; [|by rewrite NewStreamWithConn_nil].
  destruct (decide (Conn_Swarm c = self (swarm w))) as [Hsw|Hsw].
  - destruct (decide (c ∈ conns (swarm w))) as [Hin|Hin].
    + rewrite NewStreamWithConn_registered by done.
      destruct c as [ic|]; [|done].
      rewrite setupStream_eq. cbn [snd]. by destruct (ss_failure (ssConn ic)).
    + by rewrite NewStreamWithConn_not_registered.
  - by rewrite NewStreamWithConn_wrong_swarm.
Qed.

(** ** Selection *)

(** C2: on a Swarm whose connection registry is empty, NewStream returns
    NoConnections at once, whatever sits in the selector slot; the Swarm is
    as before and the selector has not been called. *)
Theorem NewStream_no_connections (s : Swarm) :
  conns s = ∅ ->
  run NewStream s = ({| swarm := s; trace := [] |}, Err ErrNoConnections).
Proof.
  intros He. unfold run. rewrite NewStream_eq.
  by rewrite NewStreamSelectConn_empty.
Qed.

Lemma NewStream_no_connections_witness :
  run NewStream emptySwarm =
    ({| swarm := emptySwarm; trace := [] |}, Err ErrNoConnections).
Proof. apply (NewStream_no_connections emptySwarm). reflexivity. Defined.

(** C3: over a non-empty connection registry, a selector that answers nil, or
    a connection that is not among those offered to it, makes
    NewStreamSelectConn fail with InvalidConnSelected; the Swarm, and so its
    streams registry, is as before, and no session was asked for a stream. *)
Theorem NewStreamSelectConn_invalid_selection (s : Swarm) (f : SelectFn) :
  conns s ≠ ∅ ->
  (f (elements (conns s)) = None \/
   exists c, f (elements (conns s)) = Some c /\ c ∉ elements (conns s)) ->
  run (NewStreamSelectConn (selector f)) s =
    ({| swarm := s; trace := [CallSelect (elements (conns s))] |},
     Err ErrInvalidConnSelected).
Proof.
  intros Hne Hf. unfold run. rewrite NewStreamSelectConn_nonempty by done.
  rewrite (newStreamSelectConn_selector _ (selector f) _ f eq_refl).
  cbn zeta. cbn [swarm trace app].
  destruct Hf as [-> | (c & -> & Hc)]; [reflexivity|].
  unfold ConnInConns. by rewrite bool_decide_eq_false_2.
Qed.

Lemma NewStreamSelectConn_invalid_selection_witness :
  run (NewStreamSelectConn (selector alwaysB)) swarmA =
    ({| swarm := swarmA; trace := [CallSelect (elements (conns swarmA))] |},
     Err ErrInvalidConnSelected).
Proof.
  apply (NewStreamSelectConn_invalid_selection swarmA alwaysB).
  - cbn [conns swarmA]. apply non_empty_singleton_L.
  - right. exists (OwnConn connB). split; [reflexivity|].
    cbn [conns swarmA]. rewrite elements_singleton. by intros ?%list_elem_of_singleton.
Defined.

(** C9: the emptiness of the connection registry is checked before the
    selector is looked at.  With an empty registry NewStreamSelectConn returns
    NoConnections, also for the nil selector; it returns the nil-selector
    error exactly when the registry is non-empty and the selector is nil. *)
Theorem NewStreamSelectConn_error_precedence (s : Swarm) (selConn : SelectConnT) :
  (conns s = ∅ ->
   resultOf (run (NewStreamSelectConn selConn) s) = Err ErrNoConnections) /\
  (resultOf (run (NewStreamSelectConn selConn) s) = Err (errors_New "nil SelectConn")
   <-> conns s ≠ ∅ /\ sc_ptr selConn = None).
Proof.
  unfold run, resultOf. split.
  - intros He. by rewrite NewStreamSelectConn_empty.
  - destruct (decide (conns s = ∅)) as [He|Hne].
    + rewrite NewStreamSelectConn_empty by done. cbn [snd]. split; [done|]. by intros [].
    + rewrite NewStreamSelectConn_nonempty by done. cbn [swarm].
      destruct (sc_ptr selConn) as [[f|h]|] eqn:Hp.
      * rewrite (newStreamSelectConn_selector _ _ _ f Hp). cbn zeta.
        split; [|by intros []]. intros Hr. exfalso. revert Hr.
        destruct (f (elements (conns s))) as [b|]; [|done].
        destruct (ConnInConns b (elements (conns s))); [|done].
        apply NewStreamWithConn_not_nil_selector.
      * rewrite (newStreamSelectConn_handler _ _ _ h Hp). cbn [snd].
        split; [done|]. by intros [].
      * rewrite (newStreamSelectConn_nil _ _ _ Hp). by cbn [snd].
Qed.

Lemma NewStreamSelectConn_error_precedence_witness :
  resultOf (run (NewStreamSelectConn nilSelectConn) emptySwarm) = Err ErrNoConnections /\
  resultOf (run (NewStreamSelectConn nilSelectConn) swarmA) =
    Err (errors_New "nil SelectConn").
Proof.
  split.
  - apply (proj1 (NewStreamSelectConn_error_precedence emptySwarm nilSelectConn)).
    reflexivity.
  - apply (proj2 (NewStreamSelectConn_error_precedence swarmA nilSelectConn)).
    split; [|reflexivity]. cbn [conns swarmA]. apply non_empty_singleton_L.
Defined.

(** ** Opening a stream on a given connection *)

(** C4, as stated, fails: on the Swarm at address 7 that holds only A, the
    nil conn, a conn of the Swarm at address 8 and the unregistered conn B are
    all refused, but not with three pairwise distinct errors. *)
Lemma NewStreamWithConn_errors_not_pairwise_distinct :
  ~ (exists eNil eWrongSwarm eNotRegistered : error,
       resultOf (run (NewStreamWithConn None) swarmA) = Err eNil /\
       resultOf (run (NewStreamWithConn (Some (OwnConn connElsewhere))) swarmA)
         = Err eWrongSwarm /\
       resultOf (run (NewStreamWithConn (Some (OwnConn connB))) swarmA)
         = Err eNotRegistered /\
       eNil ≠ eWrongSwarm /\ eNil ≠ eNotRegistered /\
       eWrongSwarm ≠ eNotRegistered).
Proof.
  intros (eNil & eW & eN & _ & HW & HN & _ & _ & Hdiff).
  vm_compute in HW, HN. congruence.
Qed.

(** C4, amended: NewStreamWithConn refuses the nil conn with the error
    "nil Conn", and refuses a conn of a different Swarm and a conn that is not
    in this Swarm's conns registry with one and the same error, "connection
    not associated with swarm", which differs from the first; in each of
    these cases the Swarm is as before and no session was asked for a
    stream. *)
Theorem NewStreamWithConn_rejects (s : Swarm) (conn : option Conn) :
  match conn with
  | None => True
  | Some c => Conn_Swarm c ≠ self s \/ c ∉ conns s
  end ->
  run (NewStreamWithConn conn) s =
    ({| swarm := s; trace := [] |},
     Err (match conn with
          | None => errors_New "nil Conn"
          | Some _ => errors_New "connection not associated with swarm"
          end)) /\
  errors_New "nil Conn" ≠ errors_New "connection not associated with swarm".
Proof.
  intros Hbad. split; [|done]. unfold run.
  destruct conn as [c|]; [|apply NewStreamWithConn_nil].
  destruct Hbad as [Hsw|Hin].
  - by apply NewStreamWithConn_wrong_swarm.
  - by apply NewStreamWithConn_not_registered.
Qed.

Lemma NewStreamWithConn_rejects_witness :
  run (NewStreamWithConn None) swarmA =
    ({| swarm := swarmA; trace := [] |}, Err (errors_New "nil Conn")) /\
  run (NewStreamWithConn (Some (OwnConn connElsewhere))) swarmA =
    ({| swarm := swarmA; trace := [] |},
     Err (errors_New "connection not associated with swarm")) /\
  run (NewStreamWithConn (Some (OwnConn connB))) swarmA =
    ({| swarm := swarmA; trace := [] |},
     Err (errors_New "connection not associated with swarm")).
Proof.
  split; [|split].
  - apply (NewStreamWithConn_rejects swarmA None). exact I.
  - apply (NewStreamWithConn_rejects swarmA (Some (OwnConn connElsewhere))).
    left. cbn. lia.
  - apply (NewStreamWithConn_rejects swarmA (Some (OwnConn connB))).
    right. cbn [conns swarmA]. intros Hin%elem_of_singleton. discriminate Hin.
Defined.

(** C10: for non-nil conns, NewStreamWithConn answers a conn of a different
    Swarm and a conn that is missing from this Swarm's conns registry with the
    same error value, so the returned error does not tell the two apart. *)
Theorem NewStreamWithConn_wrong_swarm_as_not_registered
    (s : Swarm) (foreign missing : Conn) :
  Conn_Swarm foreign ≠ self s ->
  Conn_Swarm missing = self s ->
  missing ∉ conns s ->
  exists e : error,
    resultOf (run (NewStreamWithConn (Some foreign)) s) = Err e /\
    resultOf (run (NewStreamWithConn (Some missing)) s) = Err e.
Proof.
  intros Hforeign _ Hmissing.
  exists (errors_New "connection not associated with swarm").
  unfold run, resultOf.
  rewrite NewStreamWithConn_wrong_swarm by done.
  by rewrite NewStreamWithConn_not_registered.
Qed.

Lemma NewStreamWithConn_wrong_swarm_as_not_registered_witness :
  exists e : error,
    resultOf (run (NewStreamWithConn (Some (OwnConn connElsewhere))) swarmA) = Err e /\
    resultOf (run (NewStreamWithConn (Some (OwnConn connB))) swarmA) = Err e.
Proof.
  apply (NewStreamWithConn_wrong_swarm_as_not_registered swarmA).
  - cbn. lia.
  - reflexivity.
  - cbn [conns swarmA]. intros Hin%elem_of_singleton. discriminate Hin.
Defined.

(** ** Groups *)

(** C5, on the code: for a registered Group without members,
    NewStreamWithGroup never fails with NoConnections; when a selector is
    installed it does call the selector, on the empty candidate list, and
    fails with InvalidConnSelected. *)
Theorem NewStreamWithGroup_empty_group (s : Swarm) (group : GroupID) (g : Group) :
  connGrps s !! group = Some g ->
  members g = ∅ ->
  resultOf (run (NewStreamWithGroup group) s) ≠ Err ErrNoConnections /\
  (forall f : SelectFn,
     sc_ptr (selectConn s) = Some (SelectCode f) ->
     run (NewStreamWithGroup group) s =
       ({| swarm := s; trace := [CallSelect []] |}, Err ErrInvalidConnSelected)).
Proof.
  intros Hg Hm. unfold run, resultOf.
  rewrite (NewStreamWithGroup_known {| swarm := s; trace := [] |} group g Hg).
  cbn [swarm]. rewrite Hm, elements_empty.
  assert (forall f : SelectFn,
            sc_ptr (selectConn s) = Some (SelectCode f) ->
            newStreamSelectConn (AsSelectConn (sc_ptr (selectConn s))) []
              {| swarm := s; trace := [] |} =
              ({| swarm := s; trace := [CallSelect []] |}, Err ErrInvalidConnSelected))
    as Hcalled.
  { intros f Hsel.
    rewrite (newStreamSelectConn_selector _ (AsSelectConn (sc_ptr (selectConn s))) _ f Hsel).
    cbn zeta. cbn [swarm trace app].
    destruct (f []) as [b|]; [|reflexivity].
    unfold ConnInConns. rewrite bool_decide_eq_false_2; [reflexivity|].
    apply not_elem_of_nil. }
  split; [|exact Hcalled].
  destruct (sc_ptr (selectConn s)) as [[f|h]|] eqn:Hp.
  - by rewrite (Hcalled f eq_refl).
  - by rewrite (newStreamSelectConn_handler _ (AsSelectConn (Some (HandleCode h))) [] h eq_refl).
  - by rewrite (newStreamSelectConn_nil _ (AsSelectConn None) [] eq_refl).
Qed.

Lemma NewStreamWithGroup_empty_group_witness :
  run (NewStreamWithGroup "peerX") swarmA =
    ({| swarm := swarmA; trace := [CallSelect []] |}, Err ErrInvalidConnSelected).
Proof.
  apply (proj2 (NewStreamWithGroup_empty_group swarmA "peerX" {| members := ∅ |}
                  eq_refl eq_refl) pickFirst).
  reflexivity.
Defined.

(** C6: for a GroupID under which no Group is registered, NewStreamWithGroup
    fails with GroupNotFound; the Swarm afterwards is the Swarm before, so
    streams, conns, listeners and groups are unchanged, and neither the
    selector nor a session was called. *)
Theorem NewStreamWithGroup_unknown_group (s : Swarm) (group : GroupID) :
  connGrps s !! group = None ->
  run (NewStreamWithGroup group) s =
    ({| swarm := s; trace := [] |}, Err ErrGroupNotFound).
Proof. intros Hg. unfold run. by apply NewStreamWithGroup_unknown. Qed.

Lemma NewStreamWithGroup_unknown_group_witness :
  run (NewStreamWithGroup "peerY") swarmA =
    ({| swarm := swarmA; trace := [] |}, Err ErrGroupNotFound).
Proof. apply (NewStreamWithGroup_unknown_group swarmA "peerY"). reflexivity. Defined.

(** ** Adding connections *)

(** C7, on the code: AddConn panics with "nyi" on every transport connection,
    on the first call as on the second; it returns no Conn and the conns
    registry stays as it was. *)
Theorem AddConn_not_implemented (s : Swarm) (nc : netConn) :
  run (AddConn nc) s = ({| swarm := s; trace := [] |}, Panic "nyi") /\
  run (AddConn nc ≫= fun _ => AddConn nc) s =
    ({| swarm := s; trace := [] |}, Panic "nyi").
Proof. split; reflexivity. Qed.

(** ** Policy slots *)

(** C8, on the code: StreamHandler after SetStreamHandler(h) returns h;
    SelectConn after SetSelectConn(f) returns the pointer of f at the type
    StreamHandler, the declared result type of SelectConn, and not a value of
    the selector type: only seen again at the selector's type is it f. *)
Theorem policy_get_after_set (s : Swarm) (h : StreamHandlerT) (f : SelectConnT) :
  resultOf (run (SetStreamHandler h ≫= fun _ => StreamHandler) s) = Ok h /\
  resultOf (run (SetSelectConn f ≫= fun _ => SelectConn) s)
    = Ok (AsStreamHandler (sc_ptr f)) /\
  toSelectConn (AsStreamHandler (sc_ptr f)) = f.
Proof. split; [by destruct h|]. split; [reflexivity | by destruct f]. Qed.

(** ** The calls a stream-opening operation makes

    [accounted offer w o]: the outcome [o] of an operation started in [w]
    keeps the Swarm of [w] and adds to the trace either at most one call of
    the selector and no Stream, or, after at most one call of the selector,
    one CreateStream on a conn of this Swarm that is registered (and was among
    the conns offered, if the selector was called), whose answer decides the
    result.  Whatever list the selector is called on satisfies [offer]. *)

Definition sessionAnswer (c : conn) : result Stream :=
  match ss_failure (ssConn c) with
  | Some code => Err (SessionError code)
  | None => Ok (newStream c)
  end.

Definition accounted (offer : list Conn -> Prop)
    (w : World) (o : World * result Stream) : Prop :=
  swarm o.1 = swarm w /\
  ((exists pre : list Event,
      trace o.1 = (trace w ++ pre)%list /\
      (pre = [] \/ exists cs, pre = [CallSelect cs] /\ offer cs) /\
      forall st, o.2 ≠ Ok st)
   \/
   (exists (pre : list Event) (c : conn),
      trace o.1 = (trace w ++ pre ++ [CallCreateStream c])%list /\
      (pre = [] \/ exists cs, pre = [CallSelect cs] /\ offer cs /\ OwnConn c ∈ cs) /\
      OwnConn c ∈ conns (swarm w) /\
      conn_swarm c = self (swarm w) /\
      o.2 = sessionAnswer c)).

(** The lists that a stream-opening call may offer to the selector. *)
Definition offered (s : Swarm) (call : NewStreamCall) (cs : list Conn) : Prop :=
  match call with
  | CallNewStream | CallNewStreamSelectConn _ =>
      cs = elements (conns s) /\ cs ≠ []
  | CallNewStreamWithGroup group =>
      exists g, connGrps s !! group = Some g /\ cs = elements (members g)
  | CallNewStreamWithConn _ | CallNewStreamWithNetConn _ => False
  end.

Lemma NewStreamWithConn_cases (w : World) (given : option Conn) :
  (exists e : error,
     NewStreamWithConn given w = (w, Err e) /\
     (e = errors_New "nil Conn" \/
      e = errors_New "connection not associated with swarm" \/
      e = errors_New "invalid conn"))
  \/
  (exists c : conn,
     given = Some (OwnConn c) /\
     OwnConn c ∈ conns (swarm w) /\
     conn_swarm c = self (swarm w) /\
     NewStreamWithConn given w = setupStream c w).
Proof.
  destruct given as [c|].
  - destruct (decide (Conn_Swarm c = self (swarm w))) as [Hsw|Hsw].
    + destruct (decide (c ∈ conns (swarm w))) as [Hin|Hin].
      * rewrite NewStreamWithConn_registered by done.
        destruct c as [ic|id owner]; [right; by exists ic|].
        left. eexists. split; [reflexivity|]. by right; right.
      * left. rewrite NewStreamWithConn_not_registered by done.
        eexists. split; [reflexivity|]. by right; left.
    + left. rewrite NewStreamWithConn_wrong_swarm by done.
      eexists. split; [reflexivity|]. by right; left.
  - left. rewrite NewStreamWithConn_nil. eexists. split; [reflexivity|]. by left.
Qed.

Lemma setupStream_answer (w : World) (c : conn) :
  setupStream c w =
    ({| swarm := swarm w; trace := trace w ++ [CallCreateStream c] |}, sessionAnswer c).
Proof. apply setupStream_eq. Qed.

Lemma accounted_quiet (offer : list Conn -> Prop) (w : World) (r : result Stream) :
  (forall st, r ≠ Ok st) -> accounted offer w (w, r).
Proof.
  intros Hr. split; [reflexivity|]. left. exists []. cbn [fst snd].
  rewrite app_nil_r. split; [reflexivity|]. split; [by left | exact Hr].
Qed.

Lemma accounted_selected
    (offer : list Conn -> Prop) (w : World) (cs : list Conn) (r : result Stream) :
  offer cs ->
  (forall st, r ≠ Ok st) ->
  accounted offer w ({| swarm := swarm w; trace := trace w ++ [CallSelect cs] |}, r).
Proof.
  intros Ho Hr. split; [reflexivity|]. left. exists [CallSelect cs]. cbn [fst snd trace].
  split; [reflexivity|]. split; [right; by exists cs | exact Hr].
Qed.

Lemma accounted_NewStreamWithConn
    (offer : list Conn -> Prop) (w : World) (given : option Conn) :
  accounted offer w (NewStreamWithConn given w).
Proof.
  destruct (NewStreamWithConn_cases w given)
    as [(e & -> & _) | (c & -> & Hin & Hsw & ->)]; [by apply accounted_quiet|].
  rewrite setupStream_answer. split; [reflexivity|]. right. exists [], c.
  cbn [fst snd trace app]. repeat split; try done. by left.
Qed.

Lemma accounted_newStreamSelectConn
    (offer : list Conn -> Prop) (w : World) (selConn : SelectConnT) (cs : list Conn) :
  offer cs ->
  accounted offer w (newStreamSelectConn selConn cs w).
Proof.
  intros Ho. destruct (sc_ptr selConn) as [[f|h]|] eqn:Hp.
  - rewrite (newStreamSelectConn_selector w selConn cs f Hp). cbn zeta.
    destruct (f cs) as [b|]; [|by apply accounted_selected].
    destruct (ConnInConns b cs) eqn:Hb; [|by apply accounted_selected].
    apply bool_decide_eq_true_1 in Hb.
    destruct (NewStreamWithConn_cases
                {| swarm := swarm w; trace := trace w ++ [CallSelect cs] |} (Some b))
      as [(e & -> & _) | (c & Hc & Hin & Hsw & ->)]; [by apply accounted_selected|].
    injection Hc as ->. rewrite setupStream_answer. cbn [swarm trace] in *.
    split; [reflexivity|]. right. exists [CallSelect cs], c. cbn [fst snd trace].
    rewrite <- app_assoc. repeat split; try done. right. by exists cs.
  - rewrite (newStreamSelectConn_handler w selConn cs h Hp). by apply accounted_quiet.
  - rewrite (newStreamSelectConn_nil w selConn cs Hp). by apply accounted_quiet.
Qed.

Lemma accounted_doNewStream (w : World) (call : NewStreamCall) :
  accounted (offered (swarm w) call) w (doNewStream call w).
Proof.
  assert (forall sel,
            accounted (fun cs => cs = elements (conns (swarm w)) /\ cs ≠ []) w
              (NewStreamSelectConn sel w)) as Hsel.
  { intros sel. destruct (decide (conns (swarm w) = ∅)) as [He|Hne].
    - rewrite NewStreamSelectConn_empty by done. by apply accounted_quiet.
    - rewrite NewStreamSelectConn_nonempty by done.
      apply accounted_newStreamSelectConn. split; [reflexivity|].
      intros El. apply elements_empty_inv in El. apply leibniz_equiv in El. done. }
  destruct call as [|sel|group|given|nc]; cbn [doNewStream offered].
  - rewrite NewStream_eq. apply Hsel.
  - apply Hsel.
  - destruct (connGrps (swarm w) !! group) as [g|] eqn:Hg.
    + rewrite (NewStreamWithGroup_known w group g Hg).
      apply accounted_newStreamSelectConn. by exists g.
    + rewrite NewStreamWithGroup_unknown by done. by apply accounted_quiet.
  - apply accounted_NewStreamWithConn.
  - rewrite NewStreamWithNetConn_eq. by apply accounted_quiet.
Qed.

Lemma accounted_offer (offer : list Conn -> Prop) (s : Swarm)
    (o : World * result Stream) (cs : list Conn) :
  accounted offer {| swarm := s; trace := [] |} o ->
  CallSelect cs ∈ trace o.1 ->
  offer cs.
Proof.
  intros [_ [(pre & -> & Hpre & _) | (pre & c & -> & Hpre & _)]] Hin;
    cbn [trace app] in Hin.
  - destruct Hpre as [-> | (cs' & -> & Ho)].
    + by apply elem_of_nil in Hin.
    + apply list_elem_of_singleton in Hin. by injection Hin as ->.
  - destruct Hpre as [-> | (cs' & -> & Ho & _)]; cbn [app] in Hin.
    + apply list_elem_of_singleton in Hin. discriminate Hin.
    + apply elem_of_cons in Hin as [Hin|Hin]; [by injection Hin as ->|].
      apply list_elem_of_singleton in Hin. discriminate Hin.
Qed.

Lemma accounted_stream (offer : list Conn -> Prop) (w : World)
    (o : World * result Stream) (st : Stream) :
  accounted offer w o ->
  o.2 = Ok st ->
  OwnConn (stream_conn st) ∈ conns (swarm w) /\
  conn_swarm (stream_conn st) = self (swarm w) /\
  ss_failure (ssConn (stream_conn st)) = None /\
  last (trace o.1) = Some (CallCreateStream (stream_conn st)).
Proof.
  intros [_ [(pre & _ & _ & Hno) | (pre & c & Ht & _ & Hin & Hsw & Hr)]] Hst.
  - by destruct (Hno st).
  - rewrite Hr in Hst. unfold sessionAnswer in Hst.
    destruct (ss_failure (ssConn c)) eqn:Hf; [discriminate Hst|].
    injection Hst as <-. cbn [stream_conn newStream].
    repeat split; try done. by rewrite Ht, !last_app.
Qed.

Lemma newStreamSelectConn_stream_offered
    (w : World) (selConn : SelectConnT) (cs : list Conn) (st : Stream) :
  (newStreamSelectConn selConn cs w).2 = Ok st ->
  OwnConn (stream_conn st) ∈ cs.
Proof.
  destruct (sc_ptr selConn) as [[f|h]|] eqn:Hp.
  - rewrite (newStreamSelectConn_selector w selConn cs f Hp). cbn zeta.
    destruct (f cs) as [b|]; [|discriminate].
    destruct (ConnInConns b cs) eqn:Hb; [|discriminate].
    apply bool_decide_eq_true_1 in Hb.
    destruct (NewStreamWithConn_cases
                {| swarm := swarm w; trace := trace w ++ [CallSelect cs] |} (Some b))
      as [(e & -> & _) | (c & Hc & _ & _ & ->)]; [discriminate|].
    injection Hc as ->. rewrite setupStream_answer. unfold sessionAnswer. cbn [snd].
    destruct (ss_failure (ssConn c)); [discriminate|]. by intros [= <-].
  - by rewrite (newStreamSelectConn_handler w selConn cs h Hp).
  - by rewrite (newStreamSelectConn_nil w selConn cs Hp).
Qed.

(** ** Opening streams and the streams registry *)

Lemma NewStreamWithConn_stream (w : World) (given : option Conn) (st : Stream) :
  (NewStreamWithConn given w).2 = Ok st ->
  given = Some (OwnConn (stream_conn st)) /\
  (NewStreamWithConn given w).1 =
    {| swarm := swarm w; trace := trace w ++ [CallCreateStream (stream_conn st)] |}.
Proof.
  destruct (NewStreamWithConn_cases w given)
    as [(e & -> & _) | (c & -> & _ & _ & ->)]; [discriminate|].
  rewrite setupStream_answer. unfold sessionAnswer. cbn [fst snd].
  destruct (ss_failure (ssConn c)); [discriminate|]. by intros [= <-].
Qed.

Lemma newStreamSelectConn_stream
    (w : World) (selConn : SelectConnT) (cs : list Conn) (st : Stream) :
  (newStreamSelectConn selConn cs w).2 = Ok st ->
  answerOf selConn cs = Some (OwnConn (stream_conn st)) /\
  (newStreamSelectConn selConn cs w).1 =
    {| swarm := swarm w;
       trace := trace w ++ [CallSelect cs; CallCreateStream (stream_conn st)] |}.
Proof.
  unfold answerOf. destruct (sc_ptr selConn) as [[f|h]|] eqn:Hp.
  - rewrite (newStreamSelectConn_selector w selConn cs f Hp). cbn zeta.
    destruct (f cs) as [b|]; [|discriminate].
    destruct (ConnInConns b cs); [|discriminate].
    intros Hst.
    destruct (NewStreamWithConn_stream _ _ _ Hst) as [-> ->].
    cbn [swarm trace]. by rewrite <- app_assoc.
  - by rewrite (newStreamSelectConn_handler w selConn cs h Hp).
  - by rewrite (newStreamSelectConn_nil w selConn cs Hp).
Qed.

(** C1, on the code: no NewStream* variant enters anything into the streams
    registry.  After every call, successful or not, the Swarm is the Swarm of
    before, so [streams] has gained no entry; and a call that returns a Stream
    has asked exactly one session for a stream, the session of the conn the
    call settled on, and returns the Stream of that conn. *)
Theorem NewStream_variants_register_nothing (s : Swarm) (call : NewStreamCall) :
  swarmAfter (run (doNewStream call) s) = s /\
  streams (swarmAfter (run (doNewStream call) s)) = streams s /\
  (forall st : Stream,
     resultOf (run (doNewStream call) s) = Ok st ->
     chosenConn s call = Some (OwnConn (stream_conn st)) /\
     List.filter isCreateStream (traceOf (run (doNewStream call) s))
       = [CallCreateStream (stream_conn st)]).
Proof.
  unfold run, swarmAfter, resultOf, traceOf.
  destruct (steady_doNewStream {| swarm := s; trace := [] |} call) as [Hs _].
  cbn [swarm] in Hs. split; [exact Hs|]. split; [by rewrite Hs|].
  intros st. clear Hs.
  assert (forall sel,
            (NewStreamSelectConn sel {| swarm := s; trace := [] |}).2 = Ok st ->
            answerOf sel (elements (conns s)) = Some (OwnConn (stream_conn st)) /\
            List.filter isCreateStream
              (trace (NewStreamSelectConn sel {| swarm := s; trace := [] |}).1)
              = [CallCreateStream (stream_conn st)]) as Hsel.
  { intros sel. destruct (decide (conns s = ∅)) as [He|Hne].
    - by rewrite NewStreamSelectConn_empty.
    - rewrite NewStreamSelectConn_nonempty by done. cbn [swarm]. intros Hst.
      by destruct (newStreamSelectConn_stream _ _ _ _ Hst) as [-> ->]. }
  destruct call as [|sel|group|given|nc]; cbn [doNewStream chosenConn].
  - rewrite NewStream_eq. cbn [swarm]. intros Hst.
    destruct (Hsel _ Hst) as [Ha Ht]. split; [|exact Ht].
    revert Ha. unfold answerOf. by cbn [sc_ptr].
  - apply Hsel.
  - destruct (connGrps s !! group) as [g|] eqn:Hg.
    + rewrite (NewStreamWithGroup_known {| swarm := s; trace := [] |} group g Hg).
      cbn [swarm]. intros Hst.
      destruct (newStreamSelectConn_stream _ _ _ _ Hst) as [Ha ->].
      split; [|reflexivity]. revert Ha. unfold answerOf. by cbn [sc_ptr].
    + by rewrite (NewStreamWithGroup_unknown {| swarm := s; trace := [] |} group Hg).
  - intros Hst. by destruct (NewStreamWithConn_stream _ _ _ Hst) as [-> ->].
  - by rewrite NewStreamWithNetConn_eq.
Qed.

Lemma NewStream_variants_register_nothing_witness :
  resultOf (run (doNewStream (CallNewStreamWithConn (Some (OwnConn connA)))) swarmA)
    = Ok (newStream connA) /\
  streams (swarmAfter
             (run (doNewStream (CallNewStreamWithConn (Some (OwnConn connA)))) swarmA))
    = ∅ /\
  chosenConn swarmA (CallNewStreamWithConn (Some (OwnConn connA)))
    = Some (OwnConn (stream_conn (newStream connA))) /\
  List.filter isCreateStream
    (traceOf (run (doNewStream (CallNewStreamWithConn (Some (OwnConn connA)))) swarmA))
    = [CallCreateStream (stream_conn (newStream connA))].
Proof.
  assert (resultOf (run (doNewStream (CallNewStreamWithConn (Some (OwnConn connA)))) swarmA)
            = Ok (newStream connA)) as Hok by (vm_compute; reflexivity).
  destruct (NewStream_variants_register_nothing swarmA
              (CallNewStreamWithConn (Some (OwnConn connA)))) as (_ & Hstreams & Hst).
  split; [exact Hok|]. split; [exact Hstreams | exact (Hst _ Hok)].
Defined.

(** ** Further properties of the stream-opening operations *)

(** X1: a stream-opening call makes at most two calls out of the Swarm, in
    this order: at most one call of the selector, then at most one
    CreateStream.  A session is only ever asked for a stream on a conn that is
    in this Swarm's conns registry, and, when the selector was called before,
    on a conn that was among those offered to it. *)
Theorem NewStream_trace_shape (s : Swarm) (call : NewStreamCall) :
  traceOf (run (doNewStream call) s) = [] \/
  (exists cs : list Conn, traceOf (run (doNewStream call) s) = [CallSelect cs]) \/
  (exists c : conn,
     traceOf (run (doNewStream call) s) = [CallCreateStream c] /\
     OwnConn c ∈ conns s) \/
  (exists (cs : list Conn) (c : conn),
     traceOf (run (doNewStream call) s) = [CallSelect cs; CallCreateStream c] /\
     OwnConn c ∈ cs /\ OwnConn c ∈ conns s).
Proof.
  unfold run, traceOf.
  destruct (accounted_doNewStream {| swarm := s; trace := [] |} call)
    as [_ [(pre & -> & Hpre & _) | (pre & c & -> & Hpre & Hin & _)]];
    cbn [trace app swarm] in *.
  - destruct Hpre as [-> | (cs & -> & _)]; [by left | right; left; by exists cs].
  - destruct Hpre as [-> | (cs & -> & _ & Hcs)]; cbn [app].
    + right; right; left. by exists c.
    + right; right; right. by exists cs, c.
Qed.

(** X2: whenever a NewStream* variant returns a Stream, the conn of that
    Stream is in this Swarm's conns registry, names this Swarm as its owner,
    has a session that opens streams, and the last call the operation made
    was CreateStream on that conn. *)
Theorem NewStream_success_on_registered_conn
    (s : Swarm) (call : NewStreamCall) (st : Stream) :
  resultOf (run (doNewStream call) s) = Ok st ->
  OwnConn (stream_conn st) ∈ conns s /\
  conn_swarm (stream_conn st) = self s /\
  ss_failure (ssConn (stream_conn st)) = None /\
  last (traceOf (run (doNewStream call) s)) = Some (CallCreateStream (stream_conn st)).
Proof.
  intros Hst.
  exact (accounted_stream _ _ _ st
           (accounted_doNewStream {| swarm := s; trace := [] |} call) Hst).
Qed.

Lemma NewStream_success_on_registered_conn_witness :
  OwnConn (stream_conn (newStream connA)) ∈ conns swarmAB /\
  conn_swarm (stream_conn (newStream connA)) = self swarmAB /\
  ss_failure (ssConn (stream_conn (newStream connA))) = None /\
  last (traceOf (run (doNewStream CallNewStream) swarmAB))
    = Some (CallCreateStream (stream_conn (newStream connA))).
Proof.
  apply (NewStream_success_on_registered_conn swarmAB CallNewStream (newStream connA)).
  vm_compute. reflexivity.
Defined.

(** X3: NewStream and NewStreamSelectConn call the selector on nothing but
    the snapshot of the whole conns registry, and never on an empty list. *)
Theorem selector_offered_all_conns (s : Swarm) (selConn : SelectConnT) (cs : list Conn) :
  (CallSelect cs ∈ traceOf (run NewStream s) ->
   cs = elements (conns s) /\ cs ≠ []) /\
  (CallSelect cs ∈ traceOf (run (NewStreamSelectConn selConn) s) ->
   cs = elements (conns s) /\ cs ≠ []).
Proof.
  split; intros Hin.
  - exact (accounted_offer _ s _ cs
             (accounted_doNewStream {| swarm := s; trace := [] |} CallNewStream) Hin).
  - exact (accounted_offer _ s _ cs
             (accounted_doNewStream {| swarm := s; trace := [] |}
                (CallNewStreamSelectConn selConn)) Hin).
Qed.

Lemma selector_offered_all_conns_witness :
  elements (conns swarmAB) = elements (conns swarmAB) /\ elements (conns swarmAB) ≠ [].
Proof.
  apply (proj1 (selector_offered_all_conns swarmAB nilSelectConn (elements (conns swarmAB)))).
  vm_compute. apply list_elem_of_here.
Defined.

(** X4: for a registered Group, NewStreamWithGroup calls the selector on
    nothing but the snapshot of the Group's members, and a Stream it returns
    is on a conn that is a member of the Group and is in the conns registry;
    a conn outside the Group is never used. *)
Theorem NewStreamWithGroup_within_group (s : Swarm) (group : GroupID) (g : Group) :
  connGrps s !! group = Some g ->
  (forall cs : list Conn,
     CallSelect cs ∈ traceOf (run (NewStreamWithGroup group) s) ->
     cs = elements (members g)) /\
  (forall st : Stream,
     resultOf (run (NewStreamWithGroup group) s) = Ok st ->
     OwnConn (stream_conn st) ∈ members g /\ OwnConn (stream_conn st) ∈ conns s).
Proof.
  intros Hg.
  pose proof (accounted_doNewStream {| swarm := s; trace := [] |}
                (CallNewStreamWithGroup group)) as Hacc.
  cbn [doNewStream swarm] in Hacc. split.
  - intros cs Hin. destruct (accounted_offer _ s _ cs Hacc Hin) as (g' & Hg' & ->).
    cbn [offered] in Hg'. by simplify_eq.
  - intros st Hst.
    destruct (accounted_stream _ _ _ st Hacc Hst) as (Hin & _). split; [|exact Hin].
    unfold run, resultOf in Hst.
    rewrite (NewStreamWithGroup_known {| swarm := s; trace := [] |} group g Hg) in Hst.
    apply newStreamSelectConn_stream_offered in Hst. by apply elem_of_elements in Hst.
Qed.

Lemma NewStreamWithGroup_within_group_witness :
  (forall cs : list Conn,
     CallSelect cs ∈ traceOf (run (NewStreamWithGroup "peerX") swarmAB) ->
     cs = elements (members {| members := {[ OwnConn connA ]} |})) /\
  (forall st : Stream,
     resultOf (run (NewStreamWithGroup "peerX") swarmAB) = Ok st ->
     OwnConn (stream_conn st) ∈ members {| members := {[ OwnConn connA ]} |} /\
     OwnConn (stream_conn st) ∈ conns swarmAB).
Proof.
  apply (NewStreamWithGroup_within_group swarmAB "peerX"). reflexivity.
Defined.


(** X5: NewStreamWithConn goes around selection: whatever conn it is given,
    it never calls the selector. *)
Theorem NewStreamWithConn_bypasses_selection
    (s : Swarm) (given : option Conn) (cs : list Conn) :
  CallSelect cs ∉ traceOf (run (NewStreamWithConn given) s).
Proof.
  intros Hin.
  exact (accounted_offer _ s _ cs
           (accounted_doNewStream {| swarm := s; trace := [] |}
              (CallNewStreamWithConn given)) Hin).
Qed.

(** X6: NewStreamWithConn returns a Stream exactly when it is given a conn of
    the package's own type that names this Swarm as its owner, is in the conns
    registry, and whose session opens the stream; the Stream returned is then
    the one made by newStream for that conn. *)
Theorem NewStreamWithConn_Ok_iff (s : Swarm) (given : option Conn) (st : Stream) :
  resultOf (run (NewStreamWithConn given) s) = Ok st <->
  exists c : conn,
    given = Some (OwnConn c) /\ conn_swarm c = self s /\ OwnConn c ∈ conns s /\
    ss_failure (ssConn c) = None /\ st = newStream c.
Proof.
  unfold run, resultOf. split.
  - intros Hst.
    destruct (NewStreamWithConn_cases {| swarm := s; trace := [] |} given)
      as [(e & He & _) | (c & -> & Hin & Hsw & He)]; rewrite He in Hst;
      [discriminate Hst|].
    rewrite setupStream_answer in Hst. unfold sessionAnswer in Hst. cbn [snd] in Hst.
    destruct (ss_failure (ssConn c)) eqn:Hf; [discriminate Hst|].
    injection Hst as <-. by exists c.
  - intros (c & -> & Hsw & Hin & Hf & ->).
    rewrite NewStreamWithConn_registered by done.
    rewrite setupStream_answer. unfold sessionAnswer. by rewrite Hf.
Qed.

Lemma NewStreamWithConn_Ok_iff_witness :
  resultOf (run (NewStreamWithConn (Some (OwnConn connB))) swarmAB) = Ok (newStream connB).
Proof.
  apply (proj2 (NewStreamWithConn_Ok_iff swarmAB (Some (OwnConn connB)) (newStream connB))).
  exists connB. split; [reflexivity|]. split; [reflexivity|].
  split; [|split; reflexivity]. cbn [conns swarmAB]. set_solver.
Defined.

(** X7: a conn that is registered in this Swarm and names it as owner, but is
    not of the package's own conn type, is refused with the error
    "invalid conn"; no session is asked for a stream. *)
Theorem NewStreamWithConn_foreign_type (s : Swarm) (id : nat) :
  OtherConn id (self s) ∈ conns s ->
  run (NewStreamWithConn (Some (OtherConn id (self s)))) s =
    ({| swarm := s; trace := [] |}, Err (errors_New "invalid conn")).
Proof.
  intros Hin. unfold run.
  by rewrite (NewStreamWithConn_registered {| swarm := s; trace := [] |}
                (OtherConn id (self s)) eq_refl Hin).
Qed.

Lemma NewStreamWithConn_foreign_type_witness :
  run (NewStreamWithConn (Some (OtherConn 9 (self swarmOdd)))) swarmOdd =
    ({| swarm := swarmOdd; trace := [] |}, Err (errors_New "invalid conn")).
Proof.
  apply (NewStreamWithConn_foreign_type swarmOdd 9).
  cbn [conns swarmOdd self]. set_solver.
Defined.

(** X8: on a registered conn of its own, NewStreamWithConn asks the conn's
    session for one stream and lets the session decide: when CreateStream
    fails, its error is returned as it is, and otherwise the new Stream of the
    conn; the Swarm is as before. *)
Theorem NewStreamWithConn_session_decides (s : Swarm) (c : conn) :
  conn_swarm c = self s ->
  OwnConn c ∈ conns s ->
  run (NewStreamWithConn (Some (OwnConn c))) s =
    ({| swarm := s; trace := [CallCreateStream c] |},
     match ss_failure (ssConn c) with
     | Some code => Err (SessionError code)
     | None => Ok (newStream c)
     end).
Proof.
  intros Hsw Hin. unfold run.
  rewrite (NewStreamWithConn_registered {| swarm := s; trace := [] |}
             (OwnConn c) Hsw Hin).
  apply setupStream_eq.
Qed.

Lemma NewStreamWithConn_session_decides_witness :
  run (NewStreamWithConn (Some (OwnConn connBroken))) swarmOdd =
    ({| swarm := swarmOdd; trace := [CallCreateStream connBroken] |},
     Err (SessionError 5)).
Proof.
  apply (NewStreamWithConn_session_decides swarmOdd connBroken); [reflexivity|].
  cbn [conns swarmOdd]. set_solver.
Defined.

(** X9: when the selector answers a conn of the package's own type that is in
    the conns registry and names this Swarm as owner, NewStreamSelectConn
    calls the selector once, on the snapshot of the registry, then asks that
    conn's session for one stream, and returns what NewStreamWithConn returns
    for that conn: its new Stream, or the error of the session. *)
Theorem NewStreamSelectConn_selected (s : Swarm) (f : SelectFn) (c : conn) :
  f (elements (conns s)) = Some (OwnConn c) ->
  OwnConn c ∈ conns s ->
  conn_swarm c = self s ->
  run (NewStreamSelectConn (selector f)) s =
    ({| swarm := s;
        trace := [CallSelect (elements (conns s)); CallCreateStream c] |},
     match ss_failure (ssConn c) with
     | Some code => Err (SessionError code)
     | None => Ok (newStream c)
     end).
Proof.
  intros Hf Hin Hsw. unfold run.
  rewrite NewStreamSelectConn_nonempty by set_solver.
  rewrite (newStreamSelectConn_selector _ (selector f) _ f eq_refl).
  cbn zeta. cbn [swarm trace app]. rewrite Hf.
  unfold ConnInConns. rewrite bool_decide_eq_true_2 by by apply elem_of_elements.
  rewrite (NewStreamWithConn_registered
             {| swarm := s; trace := [CallSelect (elements (conns s))] |}
             (OwnConn c) Hsw Hin).
  apply setupStream_eq.
Qed.

Lemma NewStreamSelectConn_selected_witness :
  run (NewStreamSelectConn (selector alwaysA)) swarmAB =
    ({| swarm := swarmAB;
        trace := [CallSelect (elements (conns swarmAB)); CallCreateStream connA] |},
     Ok (newStream connA)).
Proof.
  apply (NewStreamSelectConn_selected swarmAB alwaysA connA); [reflexivity| |reflexivity].
  cbn [conns swarmAB]. set_solver.
Defined.

(** X10: NewStream selects with the selector that SetSelectConn installed:
    after SetSelectConn(sel), NewStream does what NewStreamSelectConn(sel)
    does. *)
Theorem NewStream_uses_installed_selector (s : Swarm) (sel : SelectConnT) :
  run (SetSelectConn sel ≫= fun _ => NewStream) s =
  run (SetSelectConn sel ≫= fun _ => NewStreamSelectConn sel) s.
Proof.
  unfold run, mbind, M_bind, bind. cbn [SetSelectConn].
  destruct sel as [p]. reflexivity.
Qed.

(** X11: selection hands over to NewStreamWithConn.  When the selector
    answers a conn of the conns registry, NewStreamSelectConn returns what
    NewStreamWithConn returns for that conn, after the one call of the
    selector on the snapshot of the registry: the selected conn goes through
    the same validation as a conn chosen by the caller. *)
Theorem NewStreamSelectConn_delegates (s : Swarm) (f : SelectFn) (b : Conn) :
  f (elements (conns s)) = Some b ->
  b ∈ conns s ->
  resultOf (run (NewStreamSelectConn (selector f)) s)
    = resultOf (run (NewStreamWithConn (Some b)) s) /\
  traceOf (run (NewStreamSelectConn (selector f)) s)
    = CallSelect (elements (conns s)) :: traceOf (run (NewStreamWithConn (Some b)) s).
Proof.
  intros Hf Hin. unfold run, resultOf, traceOf.
  rewrite NewStreamSelectConn_nonempty by set_solver.
  rewrite (newStreamSelectConn_selector _ (selector f) _ f eq_refl).
  cbn zeta. cbn [swarm trace app]. rewrite Hf.
  unfold ConnInConns. rewrite bool_decide_eq_true_2 by by apply elem_of_elements.
  destruct (decide (Conn_Swarm b = self s)) as [Hsw|Hsw].
  - rewrite (NewStreamWithConn_registered
               {| swarm := s; trace := [CallSelect (elements (conns s))] |} b Hsw Hin).
    rewrite (NewStreamWithConn_registered {| swarm := s; trace := [] |} b Hsw Hin).
    destruct b as [c|id owner]; [|by split]. by rewrite !setupStream_eq.
  - rewrite (NewStreamWithConn_wrong_swarm
               {| swarm := s; trace := [CallSelect (elements (conns s))] |} b Hsw).
    by rewrite (NewStreamWithConn_wrong_swarm {| swarm := s; trace := [] |} b Hsw).
Qed.

Lemma NewStreamSelectConn_delegates_witness :
  resultOf (run (NewStreamSelectConn (selector alwaysB)) swarmAB)
    = resultOf (run (NewStreamWithConn (Some (OwnConn connB))) swarmAB) /\
  traceOf (run (NewStreamSelectConn (selector alwaysB)) swarmAB)
    = CallSelect (elements (conns swarmAB))
        :: traceOf (run (NewStreamWithConn (Some (OwnConn connB))) swarmAB).
Proof.
  apply (NewStreamSelectConn_delegates swarmAB alwaysB (OwnConn connB)); [reflexivity|].
  cbn [conns swarmAB]. set_solver.
Defined.

(** X12: for a registered Group, a nil selector slot makes
    NewStreamWithGroup fail with "nil SelectConn" whatever the members of the
    Group are; nothing is called and the Swarm is as before. *)
Theorem NewStreamWithGroup_nil_selector (s : Swarm) (group : GroupID) (g : Group) :
  connGrps s !! group = Some g ->
  sc_ptr (selectConn s) = None ->
  run (NewStreamWithGroup group) s =
    ({| swarm := s; trace := [] |}, Err (errors_New "nil SelectConn")).
Proof.
  intros Hg Hnil. unfold run.
  rewrite (NewStreamWithGroup_known {| swarm := s; trace := [] |} group g Hg).
  by apply newStreamSelectConn_nil.
Qed.

Lemma NewStreamWithGroup_nil_selector_witness :
  run (NewStreamWithGroup "peerX")
      (swarmAfter (run (SetSelectConn nilSelectConn) swarmAB)) =
    ({| swarm := swarmAfter (run (SetSelectConn nilSelectConn) swarmAB); trace := [] |},
     Err (errors_New "nil SelectConn")).
Proof.
  apply (NewStreamWithGroup_nil_selector
           (swarmAfter (run (SetSelectConn nilSelectConn) swarmAB)) "peerX"
           {| members := {[ OwnConn connA ]} |}); reflexivity.
Defined.

(** ** The errors of each operation *)

(** The errors that the validation of a conn can end in, apart from the
    errors of the session; the errors of selection; and the errors a
    stream-opening call can return, by the way the stream was asked for. *)
Definition connErrors : list error :=
  [ errors_New "connection not associated with swarm"; errors_New "invalid conn" ].

Definition selectionErrors : list error :=
  errors_New "nil SelectConn" :: ErrInvalidConnSelected :: connErrors.

Definition errorsOf (call : NewStreamCall) : list error :=
  match call with
  | CallNewStream | CallNewStreamSelectConn _ => ErrNoConnections :: selectionErrors
  | CallNewStreamWithGroup _ => ErrGroupNotFound :: selectionErrors
  | CallNewStreamWithConn _ => errors_New "nil Conn" :: connErrors
  | CallNewStreamWithNetConn _ => []
  end.

(** Membership in a list that is written out. *)
Ltac in_list :=
  repeat first [assumption | apply list_elem_of_here | apply list_elem_of_further].

Lemma NewStreamWithConn_some_errors (w : World) (b : Conn) (e : error) :
  (NewStreamWithConn (Some b) w).2 = Err e ->
  (exists code, e = SessionError code) \/ e ∈ connErrors.
Proof.
  unfold connErrors.
  destruct (decide (Conn_Swarm b = self (swarm w))) as [Hsw|Hsw].
  - destruct (decide (b ∈ conns (swarm w))) as [Hin|Hin].
    + rewrite NewStreamWithConn_registered by done.
      destruct b as [c|]; [|intros [= <-]; right; in_list].
      rewrite setupStream_answer. unfold sessionAnswer. cbn [snd].
      destruct (ss_failure (ssConn c)) as [code|]; [|discriminate].
      intros [= <-]. left. by exists code.
    + rewrite NewStreamWithConn_not_registered by done. intros [= <-]. right. in_list.
  - rewrite NewStreamWithConn_wrong_swarm by done. intros [= <-]. right. in_list.
Qed.

Lemma NewStreamWithConn_errors (w : World) (given : option Conn) (e : error) :
  (NewStreamWithConn given w).2 = Err e ->
  (exists code, e = SessionError code) \/ e ∈ errors_New "nil Conn" :: connErrors.
Proof.
  destruct given as [b|].
  - intros He. destruct (NewStreamWithConn_some_errors w b e He) as [Hs|Hm]; [by left|].
    right. in_list.
  - rewrite NewStreamWithConn_nil. intros [= <-]. right. in_list.
Qed.

Lemma newStreamSelectConn_errors
    (w : World) (selConn : SelectConnT) (cs : list Conn) (e : error) :
  (newStreamSelectConn selConn cs w).2 = Err e ->
  (exists code, e = SessionError code) \/ e ∈ selectionErrors.
Proof.
  unfold selectionErrors. destruct (sc_ptr selConn) as [[f|h]|] eqn:Hp.
  - rewrite (newStreamSelectConn_selector w selConn cs f Hp). cbn zeta.
    destruct (f cs) as [b|]; [|intros [= <-]; right; in_list].
    destruct (ConnInConns b cs); [|intros [= <-]; right; in_list].
    intros He. destruct (NewStreamWithConn_some_errors _ b e He) as [Hs|Hm]; [by left|].
    right. in_list.
  - by rewrite (newStreamSelectConn_handler w selConn cs h Hp).
  - rewrite (newStreamSelectConn_nil w selConn cs Hp). intros [= <-]. right. in_list.
Qed.

(** X13: the errors of the NewStream* variants.  Besides an error of the
    session, NewStreamWithConn returns only "nil Conn", "connection not
    associated with swarm" or "invalid conn"; the selecting variants return
    only "nil SelectConn", InvalidConnSelected or the last two of these, and
    in addition NoConnections (NewStream, NewStreamSelectConn) or
    GroupNotFound (NewStreamWithGroup).  So NewStreamWithGroup never returns
    NoConnections, and NewStreamWithNetConn returns no error at all. *)
Theorem NewStream_errors (s : Swarm) (call : NewStreamCall) (e : error) :
  resultOf (run (doNewStream call) s) = Err e ->
  (exists code : nat, e = SessionError code) \/ e ∈ errorsOf call.
Proof.
  unfold run, resultOf.
  assert (forall sel,
            (NewStreamSelectConn sel {| swarm := s; trace := [] |}).2 = Err e ->
            (exists code : nat, e = SessionError code) \/
            e ∈ ErrNoConnections :: selectionErrors) as Hsel.
  { intros sel. destruct (decide (conns s = ∅)) as [He|Hne].
    - rewrite NewStreamSelectConn_empty by done. intros [= <-]. right. in_list.
    - rewrite NewStreamSelectConn_nonempty by done. intros He.
      destruct (newStreamSelectConn_errors _ _ _ _ He) as [Hs|Hm]; [by left|].
      right. in_list. }
  destruct call as [|sel|group|given|nc]; cbn [doNewStream errorsOf].
  - rewrite NewStream_eq. apply Hsel.
  - apply Hsel.
  - destruct (connGrps s !! group) as [g|] eqn:Hg.
    + rewrite (NewStreamWithGroup_known {| swarm := s; trace := [] |} group g Hg).
      intros He. destruct (newStreamSelectConn_errors _ _ _ _ He) as [Hs|Hm]; [by left|].
      right. in_list.
    + rewrite (NewStreamWithGroup_unknown {| swarm := s; trace := [] |} group Hg).
      intros [= <-]. right. in_list.
  - apply NewStreamWithConn_errors.
  - by rewrite NewStreamWithNetConn_eq.
Qed.

Lemma NewStream_errors_witness :
  (exists code : nat, ErrNoConnections = SessionError code) \/
  ErrNoConnections ∈ errorsOf CallNewStream.
Proof. apply (NewStream_errors emptySwarm CallNewStream). reflexivity. Defined.

(** ** Snapshots *)


(** ** Sequences of calls *)

Definition sameRegistries (s s' : Swarm) : Prop :=
  self s' = self s /\ streams s' = streams s /\ conns s' = conns s /\
  listeners s' = listeners s /\ connGrps s' = connGrps s.

Lemma discard_world {A} (m : M A) (w : World) : (discard m w).1 = (m w).1.
Proof. unfold discard. by destruct (m w) as [w' [a|e|msg]]. Qed.

Lemma discard_result {A} (m : M A) (w : World) :
  (discard m w).2 = match (m w).2 with Panic msg => Panic msg | _ => Ok tt end.
Proof. unfold discard. by destruct (m w) as [w' [a|e|msg]]. Qed.

Lemma perform_registries (w : World) (c : ApiCall) :
  sameRegistries (swarm w) (swarm (perform c w).1).
Proof.
  destruct c as [sh| |sel| | | | |l|nc|call]; cbn [perform];
    rewrite ?discard_world; try (by repeat split).
  destruct (steady_doNewStream w call) as [-> _]. by repeat split.
Qed.

Lemma perform_slots (w : World) (c : ApiCall) :
  streamHandler (swarm (perform c w).1) = lastStreamHandler [c] (streamHandler (swarm w)) /\
  selectConn (swarm (perform c w).1) = lastSelectConn [c] (selectConn (swarm w)).
Proof.
  destruct c as [sh| |sel| | | | |l|nc|call]; cbn [perform lastStreamHandler lastSelectConn];
    rewrite ?discard_world; try (by split).
  - split; [by destruct sh | reflexivity].
  - split; [reflexivity | by destruct sel].
  - by destruct (steady_doNewStream w call) as [-> _].
Qed.

Lemma performAll_cons (w : World) (c : ApiCall) (rest : list ApiCall) :
  performAll (c :: rest) w =
    match (perform c w).2 with
    | Ok _ => performAll rest (perform c w).1
    | Err e => ((perform c w).1, Err e)
    | Panic msg => ((perform c w).1, Panic msg)
    end.
Proof.
  cbn [performAll]. unfold mbind, M_bind, bind.
  by destruct (perform c w) as [w' [a|e|msg]].
Qed.

(** X15: no sequence of calls of the Swarm's methods changes a registry:
    after any calls of the setters, the getters, the snapshots, AddListener,
    AddConn and the NewStream* variants, streams, conns, listeners and groups
    (and the Swarm's address) are what they were before, also when the
    sequence ended in a panic. *)
Theorem registries_never_change (s : Swarm) (calls : list ApiCall) :
  sameRegistries s (swarmAfter (run (performAll calls) s)).
Proof.
  unfold run, swarmAfter.
  assert (forall w, sameRegistries (swarm w) (swarm (performAll calls w).1)) as Hall;
    [|exact (Hall {| swarm := s; trace := [] |})].
  induction calls as [|c rest IH]; intros w; [by repeat split|].
  rewrite performAll_cons.
  pose proof (perform_registries w c) as (H0 & H1 & H2 & H3 & H4).
  destruct ((perform c w).2) as [a|e|msg]; cbn [fst]; [|by repeat split..].
  destruct (IH (perform c w).1) as (I0 & I1 & I2 & I3 & I4).
  repeat split; congruence.
Qed.

(** X16: after a sequence of calls that did not panic, the handler slot holds
    the argument of the last SetStreamHandler of the sequence and the selector
    slot the argument of the last SetSelectConn, or what they held before when
    there was none: no other call writes a slot, and a setter writes only its
    own. *)
Theorem slots_hold_last_set (s : Swarm) (calls : list ApiCall) :
  resultOf (run (performAll calls) s) = Ok tt ->
  streamHandler (swarmAfter (run (performAll calls) s))
    = lastStreamHandler calls (streamHandler s) /\
  selectConn (swarmAfter (run (performAll calls) s))
    = lastSelectConn calls (selectConn s).
Proof.
  unfold run, swarmAfter, resultOf.
  assert (forall w,
            (performAll calls w).2 = Ok tt ->
            streamHandler (swarm (performAll calls w).1)
              = lastStreamHandler calls (streamHandler (swarm w)) /\
            selectConn (swarm (performAll calls w).1)
              = lastSelectConn calls (selectConn (swarm w))) as Hall;
    [|exact (Hall {| swarm := s; trace := [] |})].
  induction calls as [|c rest IH]; intros w; [by split|].
  rewrite performAll_cons. destruct (perform_slots w c) as [Hh Hs].
  destruct ((perform c w).2) as [a|e|msg]; cbn [fst snd]; [|discriminate..].
  intros Hok. destruct (IH _ Hok) as [-> ->]. rewrite Hh, Hs.
  by destruct c.
Qed.

Lemma slots_hold_last_set_witness :
  streamHandler
    (swarmAfter
       (run (performAll [ApiSetStreamHandler (handler 1); ApiSetSelectConn (selector alwaysB);
                         ApiNewStream CallNewStream; ApiSetStreamHandler (handler 2);
                         ApiConns]) swarmAB))
    = handler 2 /\
  selectConn
    (swarmAfter
       (run (performAll [ApiSetStreamHandler (handler 1); ApiSetSelectConn (selector alwaysB);
                         ApiNewStream CallNewStream; ApiSetStreamHandler (handler 2);
                         ApiConns]) swarmAB))
    = selector alwaysB.
Proof.
  apply (slots_hold_last_set swarmAB
           [ApiSetStreamHandler (handler 1); ApiSetSelectConn (selector alwaysB);
            ApiNewStream CallNewStream; ApiSetStreamHandler (handler 2); ApiConns]).
  vm_compute. reflexivity.
Defined.

End peerstream.
